(** * fn-ptr: a shallow embedding of the ABI taxonomy and of the
    function-pointer reflection traits, with the properties of the spec. *)

From Stdlib Require Import String List Bool ZArith Lia.
Import ListNotations.
Open Scope string_scope.

(** ** src/abi_value.rs: the runtime ABI descriptor *)

Inductive AbiValue : Type :=
| C (unwind : bool)
| System (unwind : bool)
| Rust
| Aapcs (unwind : bool)
| Cdecl (unwind : bool)
| Stdcall (unwind : bool)
| Fastcall (unwind : bool)
| Thiscall (unwind : bool)
| Vectorcall (unwind : bool)
| SysV64 (unwind : bool)
| Win64 (unwind : bool).

(** Derived [PartialEq]. *)
Definition AbiValue_eqb (a b : AbiValue) : bool :=
  match a, b with
  | C u, C v | System u, System v | Aapcs u, Aapcs v | Cdecl u, Cdecl v
  | Stdcall u, Stdcall v | Fastcall u, Fastcall v | Thiscall u, Thiscall v
  | Vectorcall u, Vectorcall v | SysV64 u, SysV64 v | Win64 u, Win64 v =>
      Bool.eqb u v
  | Rust, Rust => true
  | _, _ => false
  end.

(** [AbiValue::allows_unwind] *)
Definition allows_unwind (v : AbiValue) : bool :=
  match v with
  | Rust => true
  | C unwind | System unwind | Aapcs unwind | Cdecl unwind | Stdcall unwind
  | Fastcall unwind | Thiscall unwind | Vectorcall unwind | SysV64 unwind
  | Win64 unwind => unwind
  end.

(** The compilation target, as seen through [cfg!(target_os)] and
    [cfg!(target_arch)]. *)
Inductive TargetOs := OsWindows | OsVexos | OsOther.
Inductive TargetArch := ArchX86 | ArchX86_64 | ArchArm | ArchAArch64 | ArchOther.

Record Target := mkTarget { target_os : TargetOs; target_arch : TargetArch }.

Definition os_is_windows (t : Target) : bool :=
  match target_os t with OsWindows => true | _ => false end.
Definition os_is_vexos (t : Target) : bool :=
  match target_os t with OsVexos => true | _ => false end.
Definition arch_is_x86 (t : Target) : bool :=
  match target_arch t with ArchX86 => true | _ => false end.
Definition arch_is_x86_64 (t : Target) : bool :=
  match target_arch t with ArchX86_64 => true | _ => false end.
Definition arch_is_arm (t : Target) : bool :=
  match target_arch t with ArchArm => true | _ => false end.
Definition arch_is_aarch64 (t : Target) : bool :=
  match target_arch t with ArchAArch64 => true | _ => false end.

(** [AbiValue::canonize]: the match arms with their guards, top to bottom. *)
Definition canonize (t : Target) (self : AbiValue) (has_c_varargs : bool)
  : option AbiValue :=
  let os_windows := os_is_windows t in
  let os_vexos := os_is_vexos t in
  let arch_x86 := arch_is_x86 t in
  let arch_x86_64 := arch_is_x86_64 t in
  let arch_arm := arch_is_arm t in
  let arch_aarch64 := arch_is_aarch64 t in
  let arch_arm_any := arch_arm || arch_aarch64 in
  match self with
  | C unwind => Some (C unwind)
  | Rust => Some Rust
  | System unwind =>
      if arch_x86 && os_windows && negb has_c_varargs then Some (Stdcall unwind)
      else if arch_arm && os_vexos then Some (Aapcs unwind)
      else Some (C unwind)
  | Aapcs unwind => if arch_arm_any then Some (Aapcs unwind) else None
  | Cdecl unwind => if arch_x86 then Some (C unwind) else Some (C unwind)
  | Fastcall unwind =>
      if arch_x86 then Some (Fastcall unwind)
      else if os_windows then Some (C unwind)
      else None
  | Stdcall unwind =>
      if arch_x86 then Some (Stdcall unwind)
      else if os_windows then Some (C unwind)
      else None
  | Thiscall unwind => if arch_x86 then Some (Thiscall unwind) else None
  | Vectorcall unwind =>
      if arch_x86 || arch_x86_64 then Some (Vectorcall unwind) else None
  | SysV64 unwind => if arch_x86_64 then Some (SysV64 unwind) else None
  | Win64 unwind => if arch_x86_64 then Some (Win64 unwind) else None
  end.

(** ** The [abi_kind_impl!] expansion for [AbiValue] *)

(** The table given to [abi_kind_impl!], in source order. *)
Definition abi_table : list (AbiValue * string) :=
  [ (Rust, "Rust");
    (C false, "C"); (C true, "C-unwind");
    (System false, "system"); (System true, "system-unwind");
    (Aapcs false, "aapcs"); (Aapcs true, "aapcs-unwind");
    (Cdecl false, "cdecl"); (Cdecl true, "cdecl-unwind");
    (Stdcall false, "stdcall"); (Stdcall true, "stdcall-unwind");
    (Fastcall false, "fastcall"); (Fastcall true, "fastcall-unwind");
    (Thiscall false, "thiscall"); (Thiscall true, "thiscall-unwind");
    (Vectorcall false, "vectorcall"); (Vectorcall true, "vectorcall-unwind");
    (SysV64 false, "sysv64"); (SysV64 true, "sysv64-unwind");
    (Win64 false, "win64"); (Win64 true, "win64-unwind") ].

(** [to_str]: one match arm per table row. *)
Definition to_str (v : AbiValue) : string :=
  match v with
  | Rust => "Rust"
  | C false => "C" | C true => "C-unwind"
  | System false => "system" | System true => "system-unwind"
  | Aapcs false => "aapcs" | Aapcs true => "aapcs-unwind"
  | Cdecl false => "cdecl" | Cdecl true => "cdecl-unwind"
  | Stdcall false => "stdcall" | Stdcall true => "stdcall-unwind"
  | Fastcall false => "fastcall" | Fastcall true => "fastcall-unwind"
  | Thiscall false => "thiscall" | Thiscall true => "thiscall-unwind"
  | Vectorcall false => "vectorcall" | Vectorcall true => "vectorcall-unwind"
  | SysV64 false => "sysv64" | SysV64 true => "sysv64-unwind"
  | Win64 false => "win64" | Win64 true => "win64-unwind"
  end.

(** [konst::eq_str] *)
Definition eq_str (a b : string) : bool := String.eqb a b.

(** [from_str_const]: the chain of [if konst::eq_str(conv, tok) { return .. }]
    followed by [None]. *)
Fixpoint from_str_const_chain (rows : list (AbiValue * string)) (conv : string)
  : option AbiValue :=
  match rows with
  | [] => None
  | (v, tok) :: rest =>
      if eq_str conv tok then Some v else from_str_const_chain rest conv
  end.

Definition from_str_const (conv : string) : option AbiValue :=
  from_str_const_chain abi_table conv.

(** [FromStr::from_str]: a [match s { tok => Ok(..), .., _ => Err(()) }];
    the first arm whose literal equals [s] is taken. *)
Definition from_str (s : string) : unit + AbiValue :=
  match find (fun row => String.eqb s (snd row)) abi_table with
  | Some (v, _) => inr v
  | None => inl tt
  end.

(** [s.parse::<AbiValue>().ok()] *)
Definition parse (s : string) : option AbiValue :=
  match from_str s with inr v => Some v | inl _ => None end.

(** ** Marker types (src/abi.rs markers, src/safety.rs) *)

(** One constructor per ABI marker type. *)
Inductive AbiMarker : Type :=
| MRust | MC | MCUnwind | MSystem | MSystemUnwind | MAapcs | MAapcsUnwind
| MCdecl | MCdeclUnwind | MStdcall | MStdcallUnwind | MFastcall | MFastcallUnwind
| MThiscall | MThiscallUnwind | MVectorcall | MVectorcallUnwind
| MSysV64 | MSysV64Unwind | MWin64 | MWin64Unwind.

(** [<M as Abi>::STR], from [define_abi_marker!(M, lit)]. *)
Definition STR (m : AbiMarker) : string :=
  match m with
  | MRust => "Rust" | MC => "C" | MCUnwind => "C-unwind"
  | MSystem => "system" | MSystemUnwind => "system-unwind"
  | MAapcs => "aapcs" | MAapcsUnwind => "aapcs-unwind"
  | MCdecl => "cdecl" | MCdeclUnwind => "cdecl-unwind"
  | MStdcall => "stdcall" | MStdcallUnwind => "stdcall-unwind"
  | MFastcall => "fastcall" | MFastcallUnwind => "fastcall-unwind"
  | MThiscall => "thiscall" | MThiscallUnwind => "thiscall-unwind"
  | MVectorcall => "vectorcall" | MVectorcallUnwind => "vectorcall-unwind"
  | MSysV64 => "sysv64" | MSysV64Unwind => "sysv64-unwind"
  | MWin64 => "win64" | MWin64Unwind => "win64-unwind"
  end.

(** [<M as Abi>::VALUE = AbiValue::from_str_const(lit).unwrap()]; the
    [unwrap] is evaluated at compile time, [None] would be a build error. *)
Definition VALUE (m : AbiMarker) : option AbiValue := from_str_const (STR m).

Definition AbiMarker_eqb (a b : AbiMarker) : bool := String.eqb (STR a) (STR b).

Inductive SafetyMarker := Safe | Unsafe.

(** [<S as Safety>::IS_SAFE] *)
Definition IS_SAFE_of (s : SafetyMarker) : bool :=
  match s with Safe => true | Unsafe => false end.

(** ** Build configuration (src/build.rs and the crate features) *)

Record BuildCfg := mkBuildCfg {
  cfg_target : Target;
  cfg_nightly : bool;              (* [use_nightly] *)
  cfg_feature_vectorcall : bool;   (* feature [abi_vectorcall] *)
  cfg_max_arity_12 : bool          (* feature [max-arity-12] *)
}.

Definition has_abi_cdecl (c : BuildCfg) : bool := arch_is_x86 (cfg_target c).
Definition has_abi_vectorcall (c : BuildCfg) : bool :=
  (arch_is_x86 (cfg_target c) || arch_is_x86_64 (cfg_target c))
  && cfg_feature_vectorcall c && cfg_nightly c.
Definition has_abi_win64 (c : BuildCfg) : bool :=
  arch_is_x86_64 (cfg_target c) && os_is_windows (cfg_target c).
Definition has_abi_sysv64 (c : BuildCfg) : bool :=
  arch_is_x86_64 (cfg_target c) && negb (os_is_windows (cfg_target c)).
Definition has_abi_aapcs (c : BuildCfg) : bool := arch_is_arm (cfg_target c).
Definition has_abi_stdcall (c : BuildCfg) : bool := arch_is_x86 (cfg_target c).
Definition has_abi_fastcall (c : BuildCfg) : bool := arch_is_x86 (cfg_target c).
Definition has_abi_thiscall (c : BuildCfg) : bool := arch_is_x86 (cfg_target c).

(** The [#[cfg(..)]] attribute in front of a row of src/impl.rs, or none. *)
Inductive AbiCfg := Universal | CfgCdecl | CfgStdcall | CfgFastcall
                  | CfgWin64 | CfgSysv64 | CfgAapcs.

Definition cfg_holds (c : BuildCfg) (g : AbiCfg) : bool :=
  match g with
  | Universal => true
  | CfgCdecl => has_abi_cdecl c
  | CfgStdcall => has_abi_stdcall c
  | CfgFastcall => has_abi_fastcall c
  | CfgWin64 => has_abi_win64 c
  | CfgSysv64 => has_abi_sysv64 c
  | CfgAapcs => has_abi_aapcs c
  end.

(** The ABI markers for which the [FnPtr] supertrait list (src/base.rs)
    requires a [WithAbiImpl], each under its [#[cfg(..)]]. *)
Definition abi_enabled (c : BuildCfg) (m : AbiMarker) : bool :=
  match m with
  | MRust | MC | MCUnwind | MSystem | MSystemUnwind => true
  | MAapcs | MAapcsUnwind => has_abi_aapcs c
  | MCdecl | MCdeclUnwind | MStdcall | MStdcallUnwind | MFastcall
  | MFastcallUnwind | MThiscall | MThiscallUnwind => has_abi_cdecl c
  | MVectorcall | MVectorcallUnwind => has_abi_vectorcall c
  | MSysV64 | MSysV64Unwind => has_abi_sysv64 c
  | MWin64 | MWin64Unwind => has_abi_win64 c
  end.

(** Tuples implement [Tuple] up to arity 6, or 12 with [max-arity-12]. *)
Definition max_arity (c : BuildCfg) : nat := if cfg_max_arity_12 c then 12 else 6.

Section FnPtrTypes.

(** The argument and return types a function-pointer type is built from. *)
Variable Ty : Type.

(** A function-pointer type, by its four attributes; the four associated
    items [Safety], [Abi], [Args], [Output] of its [FnPtr] impl. *)
Record FnTy := mkFnTy {
  fn_safety : SafetyMarker;
  fn_abi : AbiMarker;
  fn_args : list Ty;
  fn_output : Ty
}.

(** The types that implement [FnPtr] on a build. *)
Definition in_universe (c : BuildCfg) (f : FnTy) : bool :=
  Nat.leb (List.length (fn_args f)) (max_arity c) && abi_enabled c (fn_abi f).

(** Modelled from the spec: the per-(arity, safety, abi) impls of [BuildFn]
    emitted by the impl generator (not in src/). [<Args as BuildFn<S, A, R>>::F]
    is the pointer type with args [Args], safety [S], ABI [A] and output [R]
    (the bound [F: FnPtr<Args = Self, Output = Output, Safety = Safety,
    Abi = Abi>] of src/build.rs); there is no impl, [None], for a tuple longer
    than the maximal arity or an ABI not enabled on the build. *)
Definition build_fn (c : BuildCfg) (args : list Ty) (s : SafetyMarker)
    (a : AbiMarker) (out : Ty) : option FnTy :=
  if Nat.leb (List.length args) (max_arity c) && abi_enabled c a
  then Some (mkFnTy s a args out) else None.

(** src/build.rs: [impl WithArgs<Args> for G]. *)
Definition with_args (c : BuildCfg) (g : FnTy) (args : list Ty) : option FnTy :=
  build_fn c args (fn_safety g) (fn_abi g) (fn_output g).

(** src/build.rs: [impl WithOutput<Output> for G]. *)
Definition with_output (c : BuildCfg) (g : FnTy) (out : Ty) : option FnTy :=
  build_fn c (fn_args g) (fn_safety g) (fn_abi g) out.

(** src/build.rs: [impl WithSafety<Safety> for G]. *)
Definition with_safety (c : BuildCfg) (g : FnTy) (s : SafetyMarker) : option FnTy :=
  build_fn c (fn_args g) s (fn_abi g) (fn_output g).

(** src/build.rs: [impl WithAbi<Abi> for G]. *)
Definition with_abi (c : BuildCfg) (g : FnTy) (a : AbiMarker) : option FnTy :=
  build_fn c (fn_args g) (fn_safety g) a (fn_output g).

(** One substitution step, as a user writes it: [<F as WithAbi<A>>::F] etc. *)
Inductive Subst :=
| SAbi (a : AbiMarker)
| SSafety (s : SafetyMarker)
| SArgs (args : list Ty)
| SOutput (out : Ty).

Definition apply_subst (c : BuildCfg) (g : FnTy) (x : Subst) : option FnTy :=
  match x with
  | SAbi a => with_abi c g a
  | SSafety s => with_safety c g s
  | SArgs args => with_args c g args
  | SOutput out => with_output c g out
  end.

(** A chain of projections; a missing impl anywhere is a type error. *)
Fixpoint apply_seq (c : BuildCfg) (g : FnTy) (xs : list Subst) : option FnTy :=
  match xs with
  | [] => Some g
  | x :: rest =>
      match apply_subst c g x with
      | Some g' => apply_seq c g' rest
      | None => None
      end
  end.

(** The attribute tuple after a sequence of replacements. *)
Definition set_attr (g : FnTy) (x : Subst) : FnTy :=
  match x with
  | SAbi a => mkFnTy (fn_safety g) a (fn_args g) (fn_output g)
  | SSafety s => mkFnTy s (fn_abi g) (fn_args g) (fn_output g)
  | SArgs args => mkFnTy (fn_safety g) (fn_abi g) args (fn_output g)
  | SOutput out => mkFnTy (fn_safety g) (fn_abi g) (fn_args g) out
  end.

Definition final_attrs (g : FnTy) (xs : list Subst) : FnTy := fold_left set_attr xs g.

(** Whether the requested attribute has an impl on the build. *)
Definition subst_ok (c : BuildCfg) (x : Subst) : bool :=
  match x with
  | SAbi a => abi_enabled c a
  | SArgs args => Nat.leb (List.length args) (max_arity c)
  | SSafety _ | SOutput _ => true
  end.

Definition subst_kind (x : Subst) : nat :=
  match x with SAbi _ => 0 | SSafety _ => 1 | SArgs _ => 2 | SOutput _ => 3 end.

End FnPtrTypes.

Arguments mkFnTy {Ty}.
Arguments fn_safety {Ty}.
Arguments fn_abi {Ty}.
Arguments fn_args {Ty}.
Arguments fn_output {Ty}.
Arguments in_universe {Ty}.
Arguments build_fn {Ty}.
Arguments with_args {Ty}.
Arguments with_output {Ty}.
Arguments with_safety {Ty}.
Arguments with_abi {Ty}.
Arguments SAbi {Ty}.
Arguments SSafety {Ty}.
Arguments SArgs {Ty}.
Arguments SOutput {Ty}.
Arguments apply_subst {Ty}.
Arguments apply_seq {Ty}.
Arguments set_attr {Ty}.
Arguments final_attrs {Ty}.
Arguments subst_ok {Ty}.
Arguments subst_kind {Ty}.

(** ** src/impl.rs: the [impl_fn!] generator of the [FnPtr] impls *)

Section Generator.

Variable Ty : Type.

(** One [FnPtr] impl: the implementing pointer type and its constants. *)
Record ImplRow := mkImplRow {
  row_fn : FnTy Ty;
  ARITY : nat;
  IS_SAFE : bool;
  IS_EXTERN : bool;
  ABI : AbiValue
}.

(** [impl_fn!(@count (..))]: [0] or [1 + @count(tail)]. *)
Fixpoint count (tys : list Ty) : nat :=
  match tys with
  | [] => 0
  | _ :: tl => 1 + count tl
  end.

(** [impl_fn!(@impl_core (tys), fn_type, safe, is_extern, abi_ident, call_conv)];
    [call_conv] is the ABI string of the pointer syntax, here its marker. *)
Definition impl_core (tys : list Ty) (ret : Ty) (safe is_extern : bool)
    (abi_ident : AbiValue) (call_conv : AbiMarker) : ImplRow :=
  mkImplRow (mkFnTy (if safe then Safe else Unsafe) call_conv tys ret)
    (count tys) safe is_extern abi_ident.

(** [impl_fn!(@impl_u_and_s (tys), abi_ident, abi_str)]: the safe and the
    unsafe [extern "abi"] rows. *)
Definition impl_u_and_s (tys : list Ty) (ret : Ty) (abi_ident : AbiValue)
    (abi_str : AbiMarker) : list ImplRow :=
  [ impl_core tys ret true true abi_ident abi_str;
    impl_core tys ret false true abi_ident abi_str ].

(** The [@impl_u_and_s] invocations of [@impl_all], in source order: the
    [#[cfg(..)]] in front of each, the [AbiValue] named by [$abi_ident] (the
    [unwind: false] value of its ABI string) and the marker of [$abi_str]. *)
Definition extern_abis : list (AbiCfg * AbiValue * AbiMarker) :=
  [ (Universal, C false, MC);
    (Universal, System false, MSystem);
    (CfgCdecl, Cdecl false, MCdecl);
    (CfgStdcall, Stdcall false, MStdcall);
    (CfgFastcall, Fastcall false, MFastcall);
    (CfgWin64, Win64 false, MWin64);
    (CfgSysv64, SysV64 false, MSysV64);
    (CfgAapcs, Aapcs false, MAapcs) ].

(** [impl_fn!(@impl_all (tys))]: the two Rust-ABI rows, then the extern rows
    whose [#[cfg(has_abi_..)]] holds. *)
Definition impl_all (c : BuildCfg) (tys : list Ty) (ret : Ty) : list ImplRow :=
  impl_core tys ret true false Rust MRust
  :: impl_core tys ret false false Rust MRust
  :: flat_map (fun e => let '(g, v, m) := e in
                        if cfg_holds c g then impl_u_and_s tys ret v m else [])
       extern_abis.

(** [impl_fn!(@recurse (rest) (acc))]: one [@impl_all] per prefix. *)
Fixpoint impl_recurse (c : BuildCfg) (ret : Ty) (rest acc : list Ty)
  : list ImplRow :=
  match rest with
  | [] => impl_all c acc ret
  | hd :: tl => impl_all c acc ret ++ impl_recurse c ret tl (acc ++ [hd])
  end.

(** [impl_fn! { params }], with the type parameters instantiated by [params]
    and the output [Ret] by [ret]. *)
Definition impl_fn (c : BuildCfg) (params : list Ty) (ret : Ty) : list ImplRow :=
  impl_recurse c ret params [].

(** The const helpers of src/lib.rs, on the impl of [F]. *)
Definition arity (f : ImplRow) : nat := ARITY f.
Definition is_safe (f : ImplRow) : bool := IS_SAFE f.
Definition is_unsafe (f : ImplRow) : bool := negb (is_safe f).
Definition is_extern (f : ImplRow) : bool := IS_EXTERN f.
Definition abi (f : ImplRow) : AbiValue := ABI f.

End Generator.

Arguments row_fn {Ty}.
Arguments ARITY {Ty}.
Arguments IS_SAFE {Ty}.
Arguments IS_EXTERN {Ty}.
Arguments ABI {Ty}.
Arguments count {Ty}.
Arguments impl_fn {Ty}.
Arguments arity {Ty}.
Arguments is_safe {Ty}.
Arguments is_unsafe {Ty}.
Arguments is_extern {Ty}.
Arguments abi {Ty}.

(** What tells two function-pointer types of one [Args]/[Ret] family apart:
    the arity, the safety and the ABI of the row's pointer type. *)
Definition row_key {Ty} (r : ImplRow Ty) : nat * SafetyMarker * AbiMarker :=
  (List.length (fn_args (row_fn r)), fn_safety (row_fn r), fn_abi (row_fn r)).

(** The (safety, ABI) pairs of the rows of one [@impl_all] block. *)
Definition block_keys (c : BuildCfg) : list (SafetyMarker * AbiMarker) :=
  (Safe, MRust) :: (Unsafe, MRust)
  :: flat_map (fun e => let '(g, _, m) := e in
                        if cfg_holds c g then [(Safe, m); (Unsafe, m)] else [])
       extern_abis.

(** ** Pointer reconstruction (src/base.rs) *)

(** An [UntypedFnPtr] ([*const OpaqueFn]) by its address. *)
Definition UntypedFnPtr := Z.

(** The result of a call that may abort the program. *)
Inductive Outcome (A : Type) := Returned (a : A) | Aborted.
Arguments Returned {A}.
Arguments Aborted {A}.

(** A function-pointer value, by its address. *)
Record FnPtrValue := mkFnPtrValue { fn_addr : Z }.

(** Modelled from the spec: the per-type [from_ptr] of the generated [FnPtr]
    impls (not in src/): "the operation asserts non-null and aborts". *)
Definition from_ptr (ptr : UntypedFnPtr) : Outcome FnPtrValue :=
  if Z.eqb ptr 0 then Aborted else Returned (mkFnPtrValue ptr).

(** [FnPtr::from_addr]: [Self::from_ptr(addr as UntypedFnPtr)]. *)
Definition from_addr (addr : Z) : Outcome FnPtrValue := from_ptr addr.

(** ** src/marker.rs: the marker macros and constants *)

(** [<M as Abi>::ALLOWS_UNWIND = Self::VALUE.allows_unwind()]; [None] stands
    for a [VALUE] whose [unwrap] fails to build. *)
Definition ALLOWS_UNWIND (m : AbiMarker) : option bool :=
  match VALUE m with Some v => Some (allows_unwind v) | None => None end.

(** The arms of [macro_rules! abi], in source order. *)
Definition abi_macro_arms : list (string * AbiMarker) :=
  [ ("Rust", MRust); ("C", MC); ("C-unwind", MCUnwind);
    ("system", MSystem); ("system-unwind", MSystemUnwind);
    ("aapcs", MAapcs); ("aapcs-unwind", MAapcsUnwind);
    ("cdecl", MCdecl); ("cdecl-unwind", MCdeclUnwind);
    ("stdcall", MStdcall); ("stdcall-unwind", MStdcallUnwind);
    ("fastcall", MFastcall); ("fastcall-unwind", MFastcallUnwind);
    ("thiscall", MThiscall); ("thiscall-unwind", MThiscallUnwind);
    ("vectorcall", MVectorcall); ("vectorcall-unwind", MVectorcallUnwind);
    ("sysv64", MSysV64); ("sysv64-unwind", MSysV64Unwind);
    ("win64", MWin64); ("win64-unwind", MWin64Unwind) ].

(** [abi!(lit)]: the first arm matching the literal; no arm is a compile
    error, [None]. *)
Definition abi_macro (lit : string) : option AbiMarker :=
  match find (fun arm => String.eqb lit (fst arm)) abi_macro_arms with
  | Some (_, m) => Some m
  | None => None
  end.

(** The arity markers [A0] .. [A12] of [define_arity_marker!]. *)
Inductive ArityMarker :=
| A0 | A1 | A2 | A3 | A4 | A5 | A6 | A7 | A8 | A9 | A10 | A11 | A12.

(** [<A as Arity>::N] *)
Definition N (a : ArityMarker) : nat :=
  match a with
  | A0 => 0 | A1 => 1 | A2 => 2 | A3 => 3 | A4 => 4 | A5 => 5 | A6 => 6
  | A7 => 7 | A8 => 8 | A9 => 9 | A10 => 10 | A11 => 11 | A12 => 12
  end.

(** [arity!(n)]; a literal without an arm is a compile error, [None]. *)
Definition arity_macro (n : nat) : option ArityMarker :=
  match n with
  | 0 => Some A0 | 1 => Some A1 | 2 => Some A2 | 3 => Some A3 | 4 => Some A4
  | 5 => Some A5 | 6 => Some A6 | 7 => Some A7 | 8 => Some A8 | 9 => Some A9
  | 10 => Some A10 | 11 => Some A11 | 12 => Some A12
  | _ => None
  end.

(** src/tuple.rs: [<Args as Tuple>::Arity], from the [impl_tuple!] rows; the
    rows of arity 7 to 12 are under [#[cfg(feature = "max-arity-12")]]; a
    longer tuple has no impl, [None]. *)
Definition Tuple_Arity {Ty : Type} (c : BuildCfg) (args : list Ty)
  : option ArityMarker :=
  let big a := if cfg_max_arity_12 c then Some a else None in
  match List.length args with
  | 0 => Some A0 | 1 => Some A1 | 2 => Some A2 | 3 => Some A3
  | 4 => Some A4 | 5 => Some A5 | 6 => Some A6
  | 7 => big A7 | 8 => big A8 | 9 => big A9 | 10 => big A10
  | 11 => big A11 | 12 => big A12
  | _ => None
  end.

(** ** Properties of the ABI taxonomy *)

(** The [unwind] payload of a variant; [Rust] carries none. *)
Definition unwind_payload (v : AbiValue) : option bool :=
  match v with
  | Rust => None
  | C u | System u | Aapcs u | Cdecl u | Stdcall u | Fastcall u | Thiscall u
  | Vectorcall u | SysV64 u | Win64 u => Some u
  end.

Example to_str_example : to_str (SysV64 true) = "sysv64-unwind".
Proof. reflexivity. Qed.

Example parse_example : parse "system-unwind" = Some (System true).
Proof. reflexivity. Qed.

Example parse_unknown_example : parse "Rust-unwind" = None.
Proof. reflexivity. Qed.

(** Every row of the table pairs a value with its [to_str]. *)
Lemma abi_table_to_str :
  forall row, In row abi_table -> to_str (fst row) = snd row.
Proof.
  intros row H; simpl in H.
  repeat (destruct H as [H | H]; [subst row; reflexivity |]); contradiction.
Qed.

(** The chain of [from_str_const] is the first-match lookup of the table. *)
Lemma from_str_const_chain_find :
  forall rows s,
    from_str_const_chain rows s =
    match find (fun row => String.eqb s (snd row)) rows with
    | Some (v, _) => Some v
    | None => None
    end.
Proof.
  induction rows as [| [v tok] rest IH]; intros s; simpl; [reflexivity |].
  unfold eq_str; destruct (String.eqb s tok); [reflexivity | apply IH].
Qed.

(** C3: printing then parsing is the identity on the 21 values, and parsing
    fails on every string that is not a canonical token. *)
Theorem parse_to_str_roundtrip :
  (forall v, parse (to_str v) = Some v) /\
  (forall s, (forall v, s <> to_str v) -> parse s = None).
Proof.
  split.
  - intros v; destruct v; try destruct unwind; reflexivity.
  - intros s Hs; unfold parse, from_str.
    destruct (find (fun row => String.eqb s (snd row)) abi_table) as [[v tok] |]
      eqn:E; [| reflexivity].
    apply find_some in E as [Hin Heq]; simpl in Heq.
    apply String.eqb_eq in Heq; subst tok.
    apply abi_table_to_str in Hin; simpl in Hin.
    exfalso; apply (Hs v); symmetry; exact Hin.
Qed.

(** C4 (as the spec states it) fails: the empty string is no token. *)
Lemma parse_empty_not_rust : parse "" <> Some Rust.
Proof. vm_compute; discriminate. Qed.

(** C4, as the code does it: parsing the empty string fails, both through
    [FromStr] ([Err(())]) and through [from_str_const] ([None]). *)
Theorem parse_empty_fails : from_str "" = inl tt /\ from_str_const "" = None.
Proof. split; reflexivity. Qed.

(** C6: [allows_unwind] is [true] on [Rust] and the [unwind] payload on every
    other variant; so it holds exactly on [Rust] and the [*-unwind] variants. *)
Theorem allows_unwind_table :
  allows_unwind Rust = true /\
  (forall v u, unwind_payload v = Some u -> allows_unwind v = u) /\
  (forall v, allows_unwind v = true <-> v = Rust \/ unwind_payload v = Some true).
Proof.
  split; [reflexivity | split].
  - intros v u H; destruct v; simpl in *; congruence.
  - intros v; destruct v; try destruct unwind; simpl; split; intros H;
      first [ reflexivity | discriminate | now auto
            | destruct H as [H | H]; discriminate ].
Qed.

(** C7: on every target and for both [has_c_varargs], [C] and [Rust] are kept
    and [Cdecl{u}] becomes [C{u}]. *)
Theorem canonize_c_rust_cdecl :
  forall t has_c_varargs u,
    canonize t (C u) has_c_varargs = Some (C u) /\
    canonize t Rust has_c_varargs = Some Rust /\
    canonize t (Cdecl u) has_c_varargs = Some (C u).
Proof.
  intros t h u; repeat split; simpl; destruct (arch_is_x86 t); reflexivity.
Qed.

(** C8: a canonicalized variant with an [unwind] payload is not [Rust] and has
    the same payload; [Rust] only becomes [Rust]. *)
Theorem canonize_preserves_unwind :
  forall t has_c_varargs v u w,
    unwind_payload v = Some u ->
    canonize t v has_c_varargs = Some w ->
    w <> Rust /\ unwind_payload w = Some u.
Proof.
  intros t h v u w Hv Hc.
  destruct v; simpl in Hv; try discriminate; injection Hv as <-; simpl in Hc;
    repeat match type of Hc with
           | context [if ?b then _ else _] => destruct b
           end;
    try discriminate; injection Hc as <-; split; simpl; congruence.
Qed.

Lemma canonize_rust_only_rust :
  forall t has_c_varargs w, canonize t Rust has_c_varargs = Some w -> w = Rust.
Proof. intros t h w H; simpl in H; congruence. Qed.

(** C10: the const-context parser and the [FromStr] parser agree on every
    string. *)
Theorem from_str_const_eq_from_str :
  forall s, from_str_const s = parse s.
Proof.
  intros s; unfold from_str_const, parse, from_str.
  rewrite from_str_const_chain_find.
  destruct (find _ abi_table) as [[v tok] |]; reflexivity.
Qed.

(** ** Properties of the substitution traits *)

Section Substitutions.

Variable Ty : Type.

(** One substitution on a type of the universe: it exists exactly when the
    requested attribute has an impl, and it replaces that attribute. *)
Lemma apply_subst_in_universe :
  forall c (f : FnTy Ty) x,
    in_universe c f = true ->
    apply_subst c f x = if subst_ok c x then Some (set_attr f x) else None.
Proof.
  intros c [s a args out] x Hf; unfold in_universe in Hf; simpl in Hf.
  apply andb_prop in Hf as [Hlen Habi].
  destruct x as [a' | s' | args' | out']; simpl;
    unfold with_abi, with_safety, with_args, with_output, build_fn; simpl;
    rewrite ?Hlen, ?Habi, ?andb_true_r; simpl; reflexivity.
Qed.

Lemma set_attr_in_universe :
  forall c (f : FnTy Ty) x,
    in_universe c f = true -> subst_ok c x = true ->
    in_universe c (set_attr f x) = true.
Proof.
  intros c [s a args out] x Hf Hx; unfold in_universe in *; simpl in *.
  apply andb_prop in Hf as [Hlen Habi].
  destruct x; simpl in *; rewrite ?Hlen, ?Habi, ?Hx; reflexivity.
Qed.

Lemma set_attr_comm :
  forall (f : FnTy Ty) x y,
    subst_kind x <> subst_kind y -> set_attr (set_attr f x) y = set_attr (set_attr f y) x.
Proof.
  intros [s a args out] x y H; destruct x, y; simpl in *; congruence.
Qed.

End Substitutions.

(** C1: on a type [F] of the universe, each substitution by [F]'s own
    attribute gives back [F]. *)
Theorem with_own_attribute_identity :
  forall (Ty : Type) (c : BuildCfg) (f : FnTy Ty),
    in_universe c f = true ->
    with_abi c f (fn_abi f) = Some f /\
    with_safety c f (fn_safety f) = Some f /\
    with_args c f (fn_args f) = Some f /\
    with_output c f (fn_output f) = Some f.
Proof.
  intros Ty c [s a args out] Hf; unfold in_universe in Hf; simpl in Hf.
  unfold with_abi, with_safety, with_args, with_output, build_fn; simpl.
  rewrite Hf; repeat split.
Qed.

(** C2: on a type of the universe, a sequence of substitutions yields (when
    every requested attribute has an impl) the type given by the final
    attribute tuple, and two substitutions of different attributes commute. *)
Theorem substitutions_commute :
  forall (Ty : Type) (c : BuildCfg) (f : FnTy Ty),
    in_universe c f = true ->
    (forall xs, apply_seq c f xs =
                if forallb (subst_ok c) xs then Some (final_attrs f xs) else None) /\
    (forall x y, subst_kind x <> subst_kind y ->
                 apply_seq c f [x; y] = apply_seq c f [y; x]).
Proof.
  intros Ty c f Hf.
  assert (Hseq : forall (xs : list (Subst Ty)) (g : FnTy Ty), in_universe c g = true ->
            apply_seq c g xs =
            if forallb (subst_ok c) xs then Some (final_attrs g xs) else None).
  { induction xs as [| x rest IH]; intros g Hg; [reflexivity |].
    simpl; rewrite apply_subst_in_universe by exact Hg.
    destruct (subst_ok c x) eqn:Hx; simpl; [| reflexivity].
    apply IH, set_attr_in_universe; assumption. }
  split; [intros xs; apply Hseq, Hf |].
  intros x y Hxy; rewrite !Hseq by exact Hf; simpl.
  rewrite !andb_true_r, andb_comm.
  destruct (subst_ok c y && subst_ok c x); [| reflexivity].
  unfold final_attrs; simpl; rewrite set_attr_comm by exact Hxy; reflexivity.
Qed.

(** ** Properties of the generated [FnPtr] impls *)

Lemma count_length : forall (Ty : Type) (tys : list Ty), count tys = List.length tys.
Proof. intros Ty tys; induction tys as [| t tl IH]; simpl; congruence. Qed.

(** The constants of one row agree with its associated types. *)
Definition row_consistent {Ty} (r : ImplRow Ty) : Prop :=
  arity r = List.length (fn_args (row_fn r)) /\
  is_safe r = IS_SAFE_of (fn_safety (row_fn r)) /\
  is_unsafe r = negb (is_safe r) /\
  is_extern r = negb (AbiValue_eqb (abi r) Rust) /\
  VALUE (fn_abi (row_fn r)) = Some (abi r).

Lemma impl_core_consistent :
  forall (Ty : Type) (tys : list Ty) ret safe is_ext ident m,
    is_ext = negb (AbiValue_eqb ident Rust) ->
    VALUE m = Some ident ->
    row_consistent (impl_core Ty tys ret safe is_ext ident m).
Proof.
  intros Ty tys ret safe is_ext ident m He Hv; unfold row_consistent; simpl.
  repeat split; try apply count_length; try (destruct safe; reflexivity); auto.
Qed.

(** Each extern row names a non-[Rust] value whose marker parses to it. *)
Lemma extern_abis_ok :
  forall g v m, In (g, v, m) extern_abis ->
    negb (AbiValue_eqb v Rust) = true /\ VALUE m = Some v.
Proof.
  intros g v m H; simpl in H.
  repeat (destruct H as [H | H]; [injection H as <- <- <-; split; reflexivity |]);
    contradiction.
Qed.

Lemma impl_all_consistent :
  forall (Ty : Type) c (tys : list Ty) ret r,
    In r (impl_all Ty c tys ret) -> row_consistent r.
Proof.
  intros Ty c tys ret r H; unfold impl_all in H; cbn [In] in H.
  destruct H as [<- | [<- | H]];
    [apply impl_core_consistent; reflexivity .. |].
  apply in_flat_map in H as [[[g v] m] [He Hr]].
  destruct (extern_abis_ok g v m He) as [Hx Hv].
  destruct (cfg_holds c g); [| contradiction].
  destruct Hr as [<- | [<- | []]];
    apply impl_core_consistent; auto; symmetry; exact Hx.
Qed.

(** C5: for every generated [FnPtr] impl, [arity] is the length of [Args],
    [is_safe] is the safety marker's [IS_SAFE] and [is_unsafe] its negation,
    [is_extern] holds exactly when the ABI is not [Rust], and [abi] is the
    [VALUE] of the ABI marker of the pointer type. *)
Theorem fnptr_constants_agree :
  forall (Ty : Type) (c : BuildCfg) (params : list Ty) (ret : Ty) r,
    In r (impl_fn c params ret) ->
    arity r = List.length (fn_args (row_fn r)) /\
    is_safe r = IS_SAFE_of (fn_safety (row_fn r)) /\
    is_unsafe r = negb (is_safe r) /\
    is_extern r = negb (AbiValue_eqb (abi r) Rust) /\
    VALUE (fn_abi (row_fn r)) = Some (abi r).
Proof.
  intros Ty c params ret r H.
  change (row_consistent r).
  unfold impl_fn in H; revert H; generalize (@nil Ty) as acc.
  induction params as [| hd tl IH]; intros acc H; cbn [impl_recurse] in H.
  - exact (impl_all_consistent Ty c acc ret r H).
  - apply in_app_or in H as [H | H];
      [exact (impl_all_consistent Ty c acc ret r H) | exact (IH _ H)].
Qed.

(** ** Reconstruction from a null pointer *)

(** C9: [from_ptr(null)] and [from_addr(0)] abort rather than return. *)
Theorem from_null_aborts : from_ptr 0%Z = Aborted /\ from_addr 0%Z = Aborted.
Proof. split; reflexivity. Qed.

(** ** Concrete instances *)

(** An x86_64 Linux build with the default features. *)
Definition linux_x86_64 : BuildCfg :=
  mkBuildCfg (mkTarget OsOther ArchX86_64) false false false.

(** A 32-bit x86 Windows build. *)
Definition windows_x86 : Target := mkTarget OsWindows ArchX86.

(** Scenario 4 of the spec, with [nat] standing for [i32] and [String]:
    [with_abi!("system", unsafe fn(i32) -> String)] is
    [unsafe extern "system" fn(i32) -> String]. *)
Example with_abi_system_example :
  with_abi linux_x86_64 (mkFnTy Unsafe MRust [0] 1) MSystem
  = Some (mkFnTy Unsafe MSystem [0] 1).
Proof. reflexivity. Qed.

(** [sysv64] has no impl on an x86 Windows build. *)
Example with_abi_disabled_example :
  with_abi (mkBuildCfg windows_x86 false false false) (mkFnTy Safe MC [0] 1) MSysV64
  = None.
Proof. reflexivity. Qed.

Example canonize_system_example :
  canonize windows_x86 (System true) false = Some (Stdcall true).
Proof. reflexivity. Qed.

Lemma with_own_attribute_identity_witness :
  in_universe linux_x86_64 (mkFnTy Unsafe MSysV64 [1; 2] 3) = true /\
  with_abi linux_x86_64 (mkFnTy Unsafe MSysV64 [1; 2] 3) MSysV64
  = Some (mkFnTy Unsafe MSysV64 [1; 2] 3).
Proof.
  split; [reflexivity |].
  apply (with_own_attribute_identity nat linux_x86_64 (mkFnTy Unsafe MSysV64 [1; 2] 3)).
  reflexivity.
Defined.

Lemma substitutions_commute_witness :
  in_universe linux_x86_64 (mkFnTy Safe MRust [1] 2) = true /\
  apply_seq linux_x86_64 (mkFnTy Safe MRust [1] 2) [SAbi MCUnwind; SArgs [4; 5]]
  = apply_seq linux_x86_64 (mkFnTy Safe MRust [1] 2) [SArgs [4; 5]; SAbi MCUnwind].
Proof.
  split; [reflexivity |].
  apply (proj2 (substitutions_commute nat linux_x86_64 (mkFnTy Safe MRust [1] 2)
                  (eq_refl true))).
  discriminate.
Defined.

Lemma fnptr_constants_agree_witness :
  let r := impl_core nat [1; 2] 7 false true (SysV64 false) MSysV64 in
  In r (impl_fn linux_x86_64 [1; 2] 7) /\
  (arity r = List.length (fn_args (row_fn r)) /\
   is_safe r = IS_SAFE_of (fn_safety (row_fn r)) /\
   is_unsafe r = negb (is_safe r) /\
   is_extern r = negb (AbiValue_eqb (abi r) Rust) /\
   VALUE (fn_abi (row_fn r)) = Some (abi r)).
Proof.
  intros r.
  assert (Hi : In r (impl_fn linux_x86_64 [1; 2] 7))
    by (vm_compute; repeat (first [left; reflexivity | right])).
  split; [exact Hi |].
  exact (fnptr_constants_agree nat linux_x86_64 [1; 2] 7 r Hi).
Defined.

Lemma canonize_preserves_unwind_witness :
  unwind_payload (System true) = Some true /\
  canonize windows_x86 (System true) false = Some (Stdcall true) /\
  Stdcall true <> Rust /\ unwind_payload (Stdcall true) = Some true.
Proof.
  split; [reflexivity | split; [reflexivity |]].
  apply (canonize_preserves_unwind windows_x86 false (System true) true (Stdcall true));
    reflexivity.
Defined.

(** ** Further properties of the code *)

Ltac find_marker :=
  first [ exists MRust; reflexivity | exists MC; reflexivity
        | exists MCUnwind; reflexivity | exists MSystem; reflexivity
        | exists MSystemUnwind; reflexivity | exists MAapcs; reflexivity
        | exists MAapcsUnwind; reflexivity | exists MCdecl; reflexivity
        | exists MCdeclUnwind; reflexivity | exists MStdcall; reflexivity
        | exists MStdcallUnwind; reflexivity | exists MFastcall; reflexivity
        | exists MFastcallUnwind; reflexivity | exists MThiscall; reflexivity
        | exists MThiscallUnwind; reflexivity | exists MVectorcall; reflexivity
        | exists MVectorcallUnwind; reflexivity | exists MSysV64; reflexivity
        | exists MSysV64Unwind; reflexivity | exists MWin64; reflexivity
        | exists MWin64Unwind; reflexivity ].

(** Every marker's [VALUE] builds (its [unwrap] succeeds) and prints back as
    the marker's [STR]; the 21 markers and the 21 values correspond one to
    one. *)
Theorem marker_value_bijection :
  (forall m, exists v, VALUE m = Some v /\ to_str v = STR m) /\
  (forall v, exists m, VALUE m = Some v) /\
  (forall m1 m2 v, VALUE m1 = Some v -> VALUE m2 = Some v -> m1 = m2).
Proof.
  split; [| split].
  - intros m; destruct m; eexists; split; reflexivity.
  - intros v; destruct v; try destruct unwind; find_marker.
  - intros m1 m2 v H1 H2; destruct m1; vm_compute in H1; injection H1 as <-;
      destruct m2; vm_compute in H2; congruence.
Qed.

Lemma abi_macro_arms_str :
  forall arm, In arm abi_macro_arms -> STR (snd arm) = fst arm.
Proof.
  intros arm H; simpl in H.
  repeat (destruct H as [H | H]; [subst arm; reflexivity |]); contradiction.
Qed.

(** [abi!] maps each marker's [STR] to that marker, and whenever it accepts a
    literal, the marker it yields has that literal as its [STR]. *)
Theorem abi_macro_str_roundtrip :
  (forall m, abi_macro (STR m) = Some m) /\
  (forall lit m, abi_macro lit = Some m -> STR m = lit).
Proof.
  split.
  - intros m; destruct m; reflexivity.
  - intros lit m H; unfold abi_macro in H.
    destruct (find _ abi_macro_arms) as [[tok m'] |] eqn:E; [| discriminate].
    injection H as <-.
    apply find_some in E as [Hin Heq]; simpl in Heq.
    apply String.eqb_eq in Heq; subst tok.
    exact (abi_macro_arms_str _ Hin).
Qed.

(** Peels the common characters of [lit = base ++ suffix] until the two
    sides differ. *)
Ltac no_suffix H :=
  repeat match type of H with
         | String _ _ = append ?b _ =>
             destruct b; simpl in H; [discriminate | injection H as _ H]
         | EmptyString = append ?b _ => destruct b; discriminate
         end;
  try discriminate.

(** [ALLOWS_UNWIND] builds for every marker and is [true] exactly for [Rust]
    and the markers whose token ends in ["-unwind"]. *)
Theorem marker_allows_unwind :
  forall m, exists b, ALLOWS_UNWIND m = Some b /\
    (b = true <-> m = MRust \/ exists base, STR m = base ++ "-unwind").
Proof.
  intros m; destruct m; eexists; (split; [reflexivity |]); simpl;
    split; intros H;
    first
      [ now left
      | right; first [ exists "C"; reflexivity | exists "system"; reflexivity
                     | exists "aapcs"; reflexivity | exists "cdecl"; reflexivity
                     | exists "stdcall"; reflexivity | exists "fastcall"; reflexivity
                     | exists "thiscall"; reflexivity
                     | exists "vectorcall"; reflexivity
                     | exists "sysv64"; reflexivity | exists "win64"; reflexivity ]
      | reflexivity
      | discriminate
      | destruct H as [H | [base H]]; [discriminate | no_suffix H] ].
Qed.

(** Distinct values print as distinct tokens. *)
Theorem to_str_injective : forall v w, to_str v = to_str w -> v = w.
Proof.
  intros v w; destruct v; try destruct unwind; destruct w; try destruct unwind;
    simpl; intros H; first [reflexivity | discriminate].
Qed.

(** Canonicalizing twice changes nothing: a canonical ABI is its own
    canonical form on the same target. *)
Theorem canonize_idempotent :
  forall t has_c_varargs v w,
    canonize t v has_c_varargs = Some w -> canonize t w has_c_varargs = Some w.
Proof.
  intros [os arch] h v w H; destruct os, arch, h, v; simpl in H;
    try discriminate; injection H as <-; reflexivity.
Qed.

(** The aliases [system] and [cdecl] never come out of canonicalization. *)
Theorem canonize_removes_aliases :
  forall t has_c_varargs v w,
    canonize t v has_c_varargs = Some w ->
    forall u, w <> System u /\ w <> Cdecl u.
Proof.
  intros [os arch] h v w H u; destruct os, arch, h, v; simpl in H;
    try discriminate; injection H as <-; split; discriminate.
Qed.

(** [has_c_varargs] only matters for [system] on 32-bit x86 Windows, where
    it selects [C] instead of [stdcall]. *)
Theorem canonize_varargs_only_system_win32 :
  forall t v,
    canonize t v true <> canonize t v false ->
    arch_is_x86 t = true /\ os_is_windows t = true /\
    exists u, v = System u /\ canonize t v true = Some (C u) /\
              canonize t v false = Some (Stdcall u).
Proof.
  intros [os arch] v H; destruct os, arch, v; simpl in *;
    try (exfalso; apply H; reflexivity).
  split; [reflexivity | split; [reflexivity | exists unwind; auto]].
Qed.

(** Canonicalization never changes whether unwinding is allowed. *)
Theorem canonize_preserves_allows_unwind :
  forall t has_c_varargs v w,
    canonize t v has_c_varargs = Some w -> allows_unwind w = allows_unwind v.
Proof.
  intros [os arch] h v w H; destruct os, arch, h, v; simpl in H;
    try discriminate; injection H as <-; reflexivity.
Qed.

(** Every ABI marker the build script enables on a target is supported by
    [canonize] on that target. *)
Theorem enabled_abi_canonizes :
  forall c m v has_c_varargs,
    abi_enabled c m = true -> VALUE m = Some v ->
    canonize (cfg_target c) v has_c_varargs <> None.
Proof.
  intros [[os arch] ni vc m12] m v h He Hv;
    destruct m; vm_compute in Hv; injection Hv as <-;
    destruct os, arch, h; simpl in *; try discriminate; congruence.
Qed.

(** The flags of src/build.rs: [sysv64] and [win64] are never both set, on
    x86_64 exactly one is, and the x86 flag excludes the x86_64 and ARM ones. *)
Theorem build_flags_exclusive :
  forall c,
    has_abi_sysv64 c && has_abi_win64 c = false /\
    (arch_is_x86_64 (cfg_target c) = true ->
       xorb (has_abi_sysv64 c) (has_abi_win64 c) = true) /\
    (has_abi_cdecl c = true ->
       has_abi_sysv64 c = false /\ has_abi_win64 c = false /\ has_abi_aapcs c = false).
Proof.
  intros [[os arch] ni vc m12]; unfold has_abi_sysv64, has_abi_win64,
    has_abi_cdecl, has_abi_aapcs; destruct os, arch; simpl;
    repeat split; intros; try reflexivity; discriminate.
Qed.

(** [WithSafety] undoes itself: switching the safety of a type of the
    universe and switching it back gives the type again (e.g.
    [make_unsafe!(make_safe!(F)) == F] for an unsafe [F]). *)
Theorem with_safety_roundtrip :
  forall (Ty : Type) (c : BuildCfg) (f : FnTy Ty) (s : SafetyMarker),
    in_universe c f = true ->
    match with_safety c f s with
    | Some g => with_safety c g (fn_safety f)
    | None => None
    end = Some f.
Proof.
  intros Ty c [s0 a args out] s Hf; unfold in_universe in Hf; simpl in Hf.
  unfold with_safety, build_fn; simpl; rewrite Hf; simpl; rewrite Hf; reflexivity.
Qed.

Ltac arity_case :=
  split;
  [ split; intros H; solve [ discriminate | lia | reflexivity ]
  | intros a H; solve [ discriminate | injection H as <-; reflexivity ] ].

(** src/tuple.rs with src/arity.rs: a tuple has a [Tuple] impl exactly up to
    the maximal arity of the build, and its arity marker's [N] is its
    length. *)
Theorem tuple_arity_length :
  forall (Ty : Type) (c : BuildCfg) (args : list Ty),
    (Tuple_Arity c args = None <-> max_arity c < List.length args) /\
    (forall a, Tuple_Arity c args = Some a -> N a = List.length args).
Proof.
  intros Ty c args; unfold Tuple_Arity, max_arity.
  generalize (List.length args) as n; intros n.
  destruct (cfg_max_arity_12 c);
    do 13 (destruct n as [| n]; [cbn; arity_case |]); cbn; arity_case.
Qed.

(** [arity!(n)] accepts exactly [0] to [12] and yields the marker whose [N]
    is [n]. *)
Theorem arity_macro_n :
  forall n,
    (arity_macro n = None <-> 12 < n) /\
    (forall a, arity_macro n = Some a -> N a = n).
Proof.
  intros n; do 13 (destruct n as [| n]; [cbn; arity_case |]); cbn; arity_case.
Qed.

(** The [#[cfg(has_abi_..)]] gate of each extern row of src/impl.rs implies
    the [#[cfg(..)]] under which src/base.rs requires its marker. *)
Lemma extern_gate_enabled :
  forall c g v m, In (g, v, m) extern_abis ->
    cfg_holds c g = true -> abi_enabled c m = true.
Proof.
  intros c g v m H; simpl in H.
  repeat (destruct H as [H | H]; [injection H as <- <- <-; simpl; auto |]);
    contradiction.
Qed.

Lemma impl_all_rows :
  forall (Ty : Type) c (tys : list Ty) ret r,
    In r (impl_all Ty c tys ret) ->
    fn_args (row_fn r) = tys /\ abi_enabled c (fn_abi (row_fn r)) = true.
Proof.
  intros Ty c tys ret r H; unfold impl_all in H; cbn [In] in H.
  destruct H as [<- | [<- | H]]; [split; reflexivity .. |].
  apply in_flat_map in H as [[[g v] m] [He Hr]].
  destruct (cfg_holds c g) eqn:Hg; [| contradiction].
  pose proof (extern_gate_enabled c g v m He Hg) as Ha.
  destruct Hr as [<- | [<- | []]]; split; simpl; auto.
Qed.

(** src/impl.rs: with at most the maximal arity of parameters, every
    [FnPtr] impl the generator emits is for a type of the universe: its
    arity is within bounds, and the [#[cfg(has_abi_..)]] gate of its row, as
    src/build.rs sets it, implies the [#[cfg(..)]] under which src/base.rs
    requires its ABI marker. *)
Theorem impl_fn_in_universe :
  forall (Ty : Type) (c : BuildCfg) (params : list Ty) (ret : Ty) r,
    List.length params <= max_arity c ->
    In r (impl_fn c params ret) -> in_universe c (row_fn r) = true.
Proof.
  intros Ty c params ret r Hp H; unfold impl_fn in H.
  assert (Hgen : forall rest acc : list Ty,
             In r (impl_recurse Ty c ret rest acc) ->
             List.length (fn_args (row_fn r)) <= List.length acc + List.length rest
             /\ abi_enabled c (fn_abi (row_fn r)) = true).
  { induction rest as [| hd tl IH]; intros acc Hr; cbn [impl_recurse] in Hr.
    - apply impl_all_rows in Hr as [-> Ha]; split; [simpl; lia | exact Ha].
    - apply in_app_or in Hr as [Hr | Hr].
      + apply impl_all_rows in Hr as [-> Ha]; split; [simpl; lia | exact Ha].
      + destruct (IH _ Hr) as [Hl Ha]; split; [| exact Ha].
        rewrite length_app in Hl; simpl in *; lia. }
  destruct (Hgen params [] H) as [Hl Ha]; simpl in Hl.
  unfold in_universe; rewrite Ha, andb_true_r; apply Nat.leb_le; lia.
Qed.

Lemma impl_all_keys :
  forall (Ty : Type) c (tys : list Ty) ret,
    map row_key (impl_all Ty c tys ret)
    = map (fun p => (List.length tys, fst p, snd p)) (block_keys c).
Proof.
  intros Ty [[os arch] ni vc m12] tys ret; destruct os, arch; reflexivity.
Qed.

Lemma nodup_map_injective :
  forall (A B : Type) (f : A -> B) (l : list A),
    (forall x y, f x = f y -> x = y) -> NoDup l -> NoDup (map f l).
Proof.
  intros A B f l Hf Hl; induction Hl as [| x l Hx Hl IH]; simpl; constructor; auto.
  intros Hin; apply in_map_iff in Hin as [y [Hy Hin]].
  apply Hf in Hy; subst y; contradiction.
Qed.

Ltac nodup_tac :=
  repeat (apply NoDup_cons; [simpl; intuition discriminate |]); apply NoDup_nil.

Lemma block_keys_nodup : forall c, NoDup (block_keys c).
Proof. intros [[os arch] ni vc m12]; destruct os, arch; vm_compute; nodup_tac. Qed.

Lemma impl_recurse_arity_lower :
  forall (Ty : Type) c ret (rest acc : list Ty) r,
    In r (impl_recurse Ty c ret rest acc) ->
    List.length acc <= List.length (fn_args (row_fn r)).
Proof.
  intros Ty c ret rest; induction rest as [| hd tl IH]; intros acc r Hr;
    cbn [impl_recurse] in Hr.
  - apply impl_all_rows in Hr as [-> _]; lia.
  - apply in_app_or in Hr as [Hr | Hr].
    + apply impl_all_rows in Hr as [-> _]; lia.
    + apply IH in Hr; rewrite length_app in Hr; simpl in Hr; lia.
Qed.

(** src/impl.rs: [impl_fn!] never emits two [FnPtr] impls for the same
    function-pointer type: the rows differ in arity, safety or ABI, as the
    coherence of the generated impls requires. *)
Theorem impl_fn_rows_distinct :
  forall (Ty : Type) (c : BuildCfg) (params : list Ty) (ret : Ty),
    NoDup (map row_key (impl_fn c params ret)).
Proof.
  intros Ty c params ret; unfold impl_fn; generalize (@nil Ty) as acc.
  induction params as [| hd tl IH]; intros acc; cbn [impl_recurse].
  - rewrite impl_all_keys.
    apply nodup_map_injective; [| apply block_keys_nodup].
    intros [s1 m1] [s2 m2] H; injection H as -> ->; reflexivity.
  - rewrite map_app; apply NoDup_app; [| apply IH |].
    + rewrite impl_all_keys.
      apply nodup_map_injective; [| apply block_keys_nodup].
      intros [s1 m1] [s2 m2] H; injection H as -> ->; reflexivity.
    + intros k Hk Hk'.
      apply in_map_iff in Hk as [r [<- Hr]]; apply impl_all_rows in Hr as [Ha _].
      apply in_map_iff in Hk' as [r' [Hkey Hr']].
      apply impl_recurse_arity_lower in Hr'.
      unfold row_key in Hkey; injection Hkey as Hlen _ _.
      rewrite Hlen, Ha, length_app in Hr'; simpl in Hr'; lia.
Qed.

(** src/impl.rs: every row [impl_fn!] emits has an ABI that does not allow
    unwinding: the generator covers the [Rust] ABI and the plain extern
    conventions, no [*-unwind] one. *)
Theorem impl_fn_no_unwind_rows :
  forall (Ty : Type) (c : BuildCfg) (params : list Ty) (ret : Ty) r,
    In r (impl_fn c params ret) ->
    abi r <> Rust -> allows_unwind (abi r) = false.
Proof.
  intros Ty c params ret r; unfold impl_fn; generalize (@nil Ty) as acc.
  assert (Hall : forall acc, In r (impl_all Ty c acc ret) ->
                   abi r <> Rust -> allows_unwind (abi r) = false).
  { intros acc H Hr; unfold impl_all in H; cbn [In] in H.
    destruct H as [<- | [<- | H]]; [contradiction Hr; reflexivity .. |].
    apply in_flat_map in H as [[[g v] m] [He Hrow]].
    destruct (cfg_holds c g); [| contradiction].
    simpl in He.
    destruct Hrow as [<- | [<- | []]]; unfold abi; simpl;
      repeat (destruct He as [He | He]; [injection He as <- <- <-; reflexivity |]);
      contradiction. }
  induction params as [| hd tl IH]; intros acc H; cbn [impl_recurse] in H.
  - exact (Hall acc H).
  - apply in_app_or in H as [H | H]; [exact (Hall acc H) | exact (IH _ H)].
Qed.

(** ** Witnesses of the further properties *)

Lemma to_str_injective_witness :
  to_str (Win64 true) = to_str (Win64 true) /\ Win64 true = Win64 true.
Proof. split; [reflexivity | apply to_str_injective; reflexivity]. Defined.

Lemma canonize_idempotent_witness :
  canonize windows_x86 (System false) false = Some (Stdcall false) /\
  canonize windows_x86 (Stdcall false) false = Some (Stdcall false).
Proof.
  split; [reflexivity |].
  apply (canonize_idempotent windows_x86 false (System false)); reflexivity.
Defined.

Lemma canonize_removes_aliases_witness :
  canonize (mkTarget OsOther ArchX86_64) (Cdecl true) false = Some (C true) /\
  C true <> Cdecl true.
Proof.
  split; [reflexivity |].
  apply (canonize_removes_aliases (mkTarget OsOther ArchX86_64) false (Cdecl true));
    reflexivity.
Defined.

Lemma canonize_varargs_only_system_win32_witness :
  canonize windows_x86 (System true) true <> canonize windows_x86 (System true) false /\
  arch_is_x86 windows_x86 = true.
Proof.
  assert (H : canonize windows_x86 (System true) true
              <> canonize windows_x86 (System true) false) by discriminate.
  split; [exact H | apply (canonize_varargs_only_system_win32 _ _ H)].
Defined.

Lemma canonize_preserves_allows_unwind_witness :
  canonize windows_x86 (System true) false = Some (Stdcall true) /\
  allows_unwind (Stdcall true) = allows_unwind (System true).
Proof.
  split; [reflexivity |].
  apply (canonize_preserves_allows_unwind windows_x86 false); reflexivity.
Defined.

Lemma enabled_abi_canonizes_witness :
  abi_enabled linux_x86_64 MSysV64Unwind = true /\
  VALUE MSysV64Unwind = Some (SysV64 true) /\
  canonize (cfg_target linux_x86_64) (SysV64 true) false <> None.
Proof.
  split; [reflexivity | split; [reflexivity |]].
  apply (enabled_abi_canonizes linux_x86_64 MSysV64Unwind); reflexivity.
Defined.

Lemma build_flags_exclusive_witness :
  arch_is_x86_64 (cfg_target linux_x86_64) = true /\
  xorb (has_abi_sysv64 linux_x86_64) (has_abi_win64 linux_x86_64) = true.
Proof.
  split; [reflexivity |].
  apply (proj1 (proj2 (build_flags_exclusive linux_x86_64))); reflexivity.
Defined.

Lemma with_safety_roundtrip_witness :
  in_universe linux_x86_64 (mkFnTy Unsafe MC [1] 2) = true /\
  match with_safety linux_x86_64 (mkFnTy Unsafe MC [1] 2) Safe with
  | Some g => with_safety linux_x86_64 g Unsafe
  | None => None
  end = Some (mkFnTy Unsafe MC [1] 2).
Proof.
  split; [reflexivity |].
  apply (with_safety_roundtrip nat linux_x86_64 (mkFnTy Unsafe MC [1] 2) Safe).
  reflexivity.
Defined.

Lemma impl_fn_in_universe_witness :
  List.length [1; 2; 3] <= max_arity linux_x86_64 /\
  In (impl_core nat [1] 0 false true (SysV64 false) MSysV64)
     (impl_fn linux_x86_64 [1; 2; 3] 0) /\
  in_universe linux_x86_64
    (row_fn (impl_core nat [1] 0 false true (SysV64 false) MSysV64)) = true.
Proof.
  assert (Hl : List.length [1; 2; 3] <= max_arity linux_x86_64)
    by (apply Nat.leb_le; reflexivity).
  assert (Hi : In (impl_core nat [1] 0 false true (SysV64 false) MSysV64)
                  (impl_fn linux_x86_64 [1; 2; 3] 0))
    by (vm_compute; repeat (first [left; reflexivity | right])).
  split; [exact Hl | split; [exact Hi |]].
  exact (impl_fn_in_universe nat linux_x86_64 [1; 2; 3] 0 _ Hl Hi).
Defined.

Lemma impl_fn_no_unwind_rows_witness :
  In (impl_core nat [1; 2] 0 true true (SysV64 false) MSysV64)
     (impl_fn linux_x86_64 [1; 2] 0) /\
  abi (impl_core nat [1; 2] 0 true true (SysV64 false) MSysV64) <> Rust /\
  allows_unwind (abi (impl_core nat [1; 2] 0 true true (SysV64 false) MSysV64))
  = false.
Proof.
  assert (Hi : In (impl_core nat [1; 2] 0 true true (SysV64 false) MSysV64)
                  (impl_fn linux_x86_64 [1; 2] 0))
    by (vm_compute; repeat (first [left; reflexivity | right])).
  assert (Hr : abi (impl_core nat [1; 2] 0 true true (SysV64 false) MSysV64) <> Rust)
    by discriminate.
  split; [exact Hi | split; [exact Hr |]].
  exact (impl_fn_no_unwind_rows nat linux_x86_64 [1; 2] 0 _ Hi Hr).
Defined.
